(** * rail_score: the deprecated compatibility shim for rail_score_sdk

    A shallow embedding of [rail_score/__init__.py].  The module body is a
    straight-line program over the interpreter state (module cache, warning
    filter, log of effects); it is written below in a state-and-exception
    monad, one monadic step per source statement.  The successor package
    [rail_score_sdk] is an opaque collaborator: the interpreter state says
    whether it can be found and what namespace it yields. *)

From stdpp Require Import gmap strings list fin_maps.

(** ** Strings *)

Module Text.

(** The line feed written [\n] in the source. *)
Definition nl : string := String (Ascii.ascii_of_nat 10) EmptyString.

(** [str.startswith]. *)
Fixpoint starts_with (p s : string) : bool :=
  match p, s with
  | EmptyString, _ => true
  | String a p', String b s' => if Ascii.eqb a b then starts_with p' s' else false
  | String _ _, EmptyString => false
  end.

(** [needle in hay] on strings. *)
Fixpoint contains (needle hay : string) : bool :=
  starts_with needle hay ||
  match hay with
  | EmptyString => false
  | String _ hay' => contains needle hay'
  end.

(** What "contains verbatim" means: the needle occurs as a contiguous
    run of the text. *)
Definition occurs_in (needle hay : string) : Prop :=
  ∃ pre post, hay = pre +:+ needle +:+ post.

End Text.

(** ** Values, exceptions, effects *)

(** Objects are known by their identity ([id(obj)] in Python): two names
    bound to [VRef i] denote one and the same object, whereas a copy, a
    wrapper or a subclass of it is another object with another identity.
    Strings and sequences are held by value: the shim neither mutates them
    nor compares them by identity. *)
#[warnings="-register-all"]
Inductive value :=
| VStr (s : string)
| VSeq (items : list value)
| VRef (identity : positive)
| VModule (name : string).

(** The module [__dict__]. *)
Abbreviation namespace := (gmap string value).

Inductive exn :=
| ModuleNotFoundError (name : string)
| ImportError (name from_module : string)
| AttributeError (of_module name : string)
| NameError (name : string)
| TypeError (what : string)
| WarningRaised (category message : string)
| ForeignError (what : string).


(** The actions of the [warnings] filter. *)
Inductive action :=
| ActError | ActIgnore | ActAlways | ActDefault | ActModule | ActOnce.

#[global] Instance action_eq_dec : EqDecision action.
Proof. solve_decision. Defined.

Inductive event :=
| EWarn (category message : string) (stacklevel : nat)
| ELoad (module_name : string)
| EBind (name : string) (v : value).

(** The interpreter state.
    - [sys_modules] is the module cache [sys.modules];
    - [installed] is what the import system finds for a module that is not
      cached: nothing, a module whose body raises, or a module whose body
      runs to the given namespace (what else that body does is its own
      business and is not recorded);
    - [warn_filter] is the action the active warning filters select for a
      category;
    - [events] logs, oldest first, the warnings handed to [warnings.warn],
      the external modules executed and the names bound in the shim. *)
Record world := World {
  sys_modules : gmap string namespace;
  installed : gmap string (exn + namespace);
  warn_filter : string → action;
  events : list event
}.

Definition set_modules (f : gmap string namespace → gmap string namespace)
    (w : world) : world :=
  {| sys_modules := f (sys_modules w); installed := installed w;
     warn_filter := warn_filter w; events := events w |}.

Definition add_event (e : event) (w : world) : world :=
  {| sys_modules := sys_modules w; installed := installed w;
     warn_filter := warn_filter w; events := events w ++ [e] |}.

(** ** The execution monad: state plus exceptions *)

Inductive result (A : Type) :=
| Ok (a : A)
| Raise (e : exn).
Arguments Ok {A} a.
Arguments Raise {A} e.

Definition exec (A : Type) : Type := world → result A * world.

#[global] Instance exec_ret : MRet exec := λ A a w, (Ok a, w).

#[global] Instance exec_bind : MBind exec := λ A B f m w,
  match m w with
  | (Ok a, w') => f a w'
  | (Raise e, w') => (Raise e, w')
  end.

Definition raise {A} (e : exn) : exec A := λ w, (Raise e, w).

Definition log (e : event) : exec () := λ w, (Ok (), add_event e w).

Definition ask_filter (category : string) : exec action :=
  λ w, (Ok (warn_filter w category), w).

(** Run [f] on each item in turn; the first exception stops the loop. *)
Fixpoint for_each {A} (f : A → exec ()) (l : list A) : exec () :=
  match l with
  | [] => mret ()
  | x :: l' => f x ;; for_each f l'
  end.

(** ** The names of the shim *)

Definition shim_name : string := "rail_score".
Definition successor_name : string := "rail_score_sdk".
Definition legacy_name : string := "RailScore".
Definition new_name : string := "RailScoreClient".

(** The namespace of the module under execution. *)
Definition shim_ns (w : world) : namespace :=
  default ∅ (sys_modules w !! shim_name).

(** ** Interpreter primitives used by the module body *)

(** [STORE_NAME]: bind a name in the shim's globals. *)
Definition store_name (n : string) (v : value) : exec () := λ w,
  (Ok (), add_event (EBind n v) (set_modules (alter (insert n v) shim_name) w)).

(** [LOAD_NAME]. *)
Definition load_name (n : string) : exec value := λ w,
  match shim_ns w !! n with
  | Some v => (Ok v, w)
  | None => (Raise (NameError n), w)
  end.

(** [import m] of a module of the runtime itself, which is always there. *)
Definition import_runtime (m : string) : exec () :=
  store_name m (VModule m).

(** [warnings.warn(message, category, stacklevel)]: the warning is handed to
    the warnings machinery; the filter action [error] turns it into an
    exception, every other action returns (whether and where the text is
    printed is the machinery's business). *)
Definition warn (message category : string) (stacklevel : nat) : exec () :=
  log (EWarn category message stacklevel) ;;
  a ← ask_filter category;
  match a with
  | ActError => raise (WarningRaised category message)
  | _ => mret ()
  end.

(** [IMPORT_NAME] of an external module: the cache first, then the finder;
    a module found is executed and cached. *)
Definition import_module (m : string) : exec namespace := λ w,
  match sys_modules w !! m with
  | Some ns => (Ok ns, w)
  | None =>
      match installed w !! m with
      | None => (Raise (ModuleNotFoundError m), w)
      | Some (inl e) => (Raise e, w)
      | Some (inr ns) =>
          (Ok ns, add_event (ELoad m) (set_modules (insert m ns) w))
      end
  end.

(** A name is skipped by a wildcard import without [__all__] when it starts
    with an underscore. *)
Definition is_public (n : string) : bool :=
  negb (Text.starts_with "_" n).

(** One round of the loop of [IMPORT_STAR]. *)
Definition star_item (m : string) (ns : namespace) (skip_underscore : bool)
    (item : value) : exec () :=
  match item with
  | VStr n =>
      if skip_underscore && negb (is_public n) then mret ()
      else match ns !! n with
           | Some v => store_name n v
           | None => raise (AttributeError m n)
           end
  | _ => raise (TypeError "Item in __all__ must be str")
  end.

(** The names a wildcard import goes through: [__all__] when the module
    declares one, otherwise the keys of its [__dict__], underscore names
    skipped.  Only a sequence is taken as an [__all__]; any other value is
    rejected. *)
Definition star_items (ns : namespace) : result (bool * list value) :=
  match ns !! "__all__" with
  | Some (VSeq items) => Ok (false, items)
  | Some _ => Raise (TypeError "__all__ must be a sequence")
  | None => Ok (true, VStr <$> (map_to_list ns).*1)
  end.

(** [from m import *]. *)
Definition import_star (m : string) : exec () :=
  ns ← import_module m;
  match star_items ns with
  | Ok (skip, items) => for_each (star_item m ns skip) items
  | Raise e => raise e
  end.

(** [from m import a, b, ...]: each name is fetched and bound in turn. *)
Definition import_from (m : string) (names : list string) : exec () :=
  ns ← import_module m;
  for_each (λ n, match ns !! n with
                 | Some v => store_name n v
                 | None => raise (ImportError n m)
                 end) names.

(** ** The two texts of the module *)

Module Texts.
Import Text.

(** Join lines, each ended by a line feed. *)
Definition lines (l : list string) : string :=
  foldr (λ s acc, s +:+ nl +:+ acc) "" l.

(** The module docstring (source lines 1 to 21), bound to [__doc__]. *)
Definition DOC : string :=
  nl +:+ lines [
    "RAIL Score — DEPRECATED. Use ``rail-score-sdk`` instead.";
    "=========================================================";
    "";
    "This package has been renamed to ``rail-score-sdk``.";
    "All future development happens there.";
    "";
    "Migration:";
    "    pip uninstall rail-score";
    "    pip install rail-score-sdk";
    "";
    "Then update your imports:";
    "    # Old";
    "    from rail_score import RailScore";
    "    # New";
    "    from rail_score_sdk import RailScoreClient";
    "";
    "For full documentation, see:";
    "    https://github.com/RAILethicsHub/rail-score/tree/main/python";
    "    https://pypi.org/project/rail-score-sdk/"
  ].

(** The message of the warning (source lines 26 to 33): adjacent literals,
    concatenated. *)
Definition NOTICE : string :=
  nl +:+ nl +:+
  "  ⚠️  The 'rail-score' package is DEPRECATED and will not receive updates." +:+ nl +:+
  "  ➡️  Please switch to 'rail-score-sdk':" +:+ nl +:+ nl +:+
  "      pip uninstall rail-score" +:+ nl +:+
  "      pip install rail-score-sdk" +:+ nl +:+ nl +:+
  "  Then update your imports:" +:+ nl +:+
  "      from rail_score_sdk import RailScoreClient" +:+ nl +:+ nl +:+
  "  Docs: https://pypi.org/project/rail-score-sdk/" +:+ nl.

(** The pieces of migration guidance. *)
Definition uninstall_command : string := "pip uninstall rail-score".
Definition install_command : string := "pip install rail-score-sdk".
Definition old_import : string := "from rail_score import RailScore".
Definition new_import : string := "from rail_score_sdk import RailScoreClient".
Definition docs_repository : string :=
  "https://github.com/RAILethicsHub/rail-score/tree/main/python".
Definition docs_package : string := "https://pypi.org/project/rail-score-sdk/".

End Texts.

(** ** The module body and its loading *)

Definition DeprecationWarning : string := "DeprecationWarning".

(** The published export list, source line 45. *)
Definition EXPORTS : value := VSeq [VStr "RailScore"; VStr "RailScoreClient"].

(** [rail_score/__init__.py], statement by statement. *)
Definition rail_score_body : exec () :=
  store_name "__doc__" (VStr Texts.DOC) ;;
  import_runtime "warnings" ;;
  warn Texts.NOTICE DeprecationWarning 2 ;;
  import_star "rail_score_sdk" ;;
  import_from "rail_score_sdk" ["RailScoreClient"; "__version__"] ;;
  client ← load_name "RailScoreClient";
  store_name "RailScore" client ;;
  store_name "__all__" EXPORTS.

(** The globals a fresh module object starts with (the loader's other
    dunder attributes play no part here). *)
Definition fresh_module : namespace := {[ "__name__" := VStr shim_name ]}.

(** [import rail_score]: a cached module is returned as it is; otherwise a
    fresh module enters the cache, the body runs in it, and an exception
    removes the module from the cache before it propagates. *)
Definition import_rail_score : exec namespace := λ w,
  match sys_modules w !! shim_name with
  | Some ns => (Ok ns, w)
  | None =>
      match rail_score_body (set_modules (insert shim_name fresh_module) w) with
      | (Ok _, w') => (Ok (shim_ns w'), w')
      | (Raise e, w') => (Raise e, set_modules (delete shim_name) w')
      end
  end.

(** ** The contract consumed from the successor *)

(** An item of [__all__] is exportable when it is a name the successor
    defines; it then stands for that name and its value. *)
Definition item_exportable (sdk : namespace) (it : value) : bool :=
  match it with
  | VStr n => bool_decide (is_Some (sdk !! n))
  | _ => false
  end.

Definition surface_item (sdk : namespace) (it : value) : option (string * value) :=
  match it with
  | VStr n => pair n <$> sdk !! n
  | _ => None
  end.

(** The successor's namespace can be imported with a wildcard: its
    [__all__], when declared, is a sequence of names it defines. *)
Definition wildcard_exportable (sdk : namespace) : bool :=
  match sdk !! "__all__" with
  | Some (VSeq items) => forallb (item_exportable sdk) items
  | Some _ => false
  | None => true
  end.

(** The public surface of the successor, in the order a wildcard import
    binds it. *)
Definition public_surface (sdk : namespace) : list (string * value) :=
  match sdk !! "__all__" with
  | Some (VSeq items) => omap (surface_item sdk) items
  | Some _ => []
  | None => filter (λ p, is_public p.1) (map_to_list sdk)
  end.

(** Binding a list of names in the shim, one [STORE_NAME] after the other:
    the effect on a namespace and on the interpreter state. *)
Definition bind_in (l : list (string * value)) (ns : namespace) : namespace :=
  foldl (λ acc p, <[p.1 := p.2]> acc) ns l.

Definition bound (l : list (string * value)) (w : world) : world :=
  {| sys_modules := alter (bind_in l) shim_name (sys_modules w);
     installed := installed w;
     warn_filter := warn_filter w;
     events := events w ++ ((λ p, EBind p.1 p.2) <$> l) |}.

(** What finding the successor yields in a state: the cached module, or
    the installed one. *)
Definition resolve (m : string) (w : world) : exn + namespace :=
  match sys_modules w !! m with
  | Some ns => inr ns
  | None =>
      match installed w !! m with
      | None => inl (ModuleNotFoundError m)
      | Some r => r
      end
  end.

(** The warnings handed to the warnings machinery so far. *)
Definition is_warning (e : event) : bool :=
  match e with
  | EWarn _ _ _ => true
  | _ => false
  end.

Definition notices (w : world) : list event :=
  filter (λ e, is_warning e = true) (events w).

(** The deprecation notice of the shim. *)
Definition the_notice : event := EWarn DeprecationWarning Texts.NOTICE 2.

(** ** The states a load goes through *)

(** The state once module [m], found as [ns], has been imported. *)
Definition with_module (m : string) (ns : namespace) (w : world) : world :=
  match sys_modules w !! m with
  | Some _ => w
  | None => add_event (ELoad m) (set_modules (insert m ns) w)
  end.

(** The globals of the shim when the warning has been issued. *)
Definition preamble_ns : namespace :=
  <["warnings" := VModule "warnings"]>
    (<["__doc__" := VStr Texts.DOC]> fresh_module).

(** The state of a first load when the warning has been issued. *)
Definition started (w : world) : world :=
  {| sys_modules := <[shim_name := preamble_ns]> (sys_modules w);
     installed := installed w;
     warn_filter := warn_filter w;
     events := events w ++ [EBind "__doc__" (VStr Texts.DOC);
                            EBind "warnings" (VModule "warnings");
                            the_notice] |}.

(** A failed load takes the module out of the cache. *)
Definition unload (w : world) : world := set_modules (delete shim_name) w.

(** The names bound by lines 40 to 45 of the source. *)
Definition own_bindings (client version : value) : list (string * value) :=
  [("RailScoreClient", client); ("__version__", version);
   ("RailScore", client); ("__all__", EXPORTS)].


(** Reading the export list of a namespace. *)
Definition exported_names (ns : namespace) : option (list string) :=
  match ns !! "__all__" with
  | Some (VSeq items) =>
      mapM (λ it, match it with VStr n => Some n | _ => None end) items
  | _ => None
  end.

(** Calling a method on the object a name of a namespace is bound to, for
    any dispatch [invoke] of the runtime. *)
Definition call_through {R} (invoke : value → string → list value → R)
    (ns : namespace) (name method : string) (args : list value) : option R :=
  (λ obj, invoke obj method args) <$> ns !! name.

(** The statements of the body that follow the warning. *)
Definition body_tail : exec () :=
  import_star "rail_score_sdk" ;;
  import_from "rail_score_sdk" ["RailScoreClient"; "__version__"] ;;
  client ← load_name "RailScoreClient";
  store_name "RailScore" client ;;
  store_name "__all__" EXPORTS.

(** The globals of the shim after a load that succeeded, and the state it
    leaves. *)
Definition final_ns (sdk : namespace) (client version : value) : namespace :=
  bind_in (public_surface sdk ++ own_bindings client version) preamble_ns.

Definition loaded (sdk : namespace) (client version : value) (w : world) : world :=
  bound (public_surface sdk ++ own_bindings client version)
    (with_module successor_name sdk (started w)).

(** The external modules a load executes: the successor, unless cached. *)
Definition load_events (w : world) : list event :=
  match sys_modules w !! successor_name with
  | Some _ => []
  | None => [ELoad successor_name]
  end.

(** ** The wildcard import and the load, as verdicts *)

(** The exception the loop of [IMPORT_STAR] over a declared [__all__] stops
    at, if any: the first item that is not a name the module defines. *)
Fixpoint first_star_error (m : string) (sdk : namespace) (items : list value)
    : option exn :=
  match items with
  | [] => None
  | VStr n :: rest =>
      match sdk !! n with
      | Some _ => first_star_error m sdk rest
      | None => Some (AttributeError m n)
      end
  | _ :: _ => Some (TypeError "Item in __all__ must be str")
  end.

Definition star_error (m : string) (sdk : namespace) : option exn :=
  match sdk !! "__all__" with
  | Some (VSeq items) => first_star_error m sdk items
  | Some _ => Some (TypeError "__all__ must be a sequence")
  | None => None
  end.

(** The outcome of a first load, read off the action of the warning filter
    and what the successor resolves to. *)
Definition load_verdict (a : action) (found : exn + namespace) : result namespace :=
  match a with
  | ActError => Raise (WarningRaised DeprecationWarning Texts.NOTICE)
  | _ =>
      match found with
      | inl e => Raise e
      | inr sdk =>
          match star_error successor_name sdk with
          | Some e => Raise e
          | None =>
              match sdk !! "RailScoreClient", sdk !! "__version__" with
              | Some client, Some version => Ok (final_ns sdk client version)
              | Some _, None => Raise (ImportError "__version__" successor_name)
              | None, _ => Raise (ImportError "RailScoreClient" successor_name)
              end
          end
      end
  end.

(** The names a wildcard import takes from a module: those its [__all__]
    lists, or its public names when it declares none. *)
Definition listed (sdk : namespace) (n : string) : Prop :=
  match sdk !! "__all__" with
  | Some (VSeq items) => VStr n ∈ items
  | Some _ => False
  | None => is_public n = true
  end.




(** ** Sample interpreter states *)

Module Samples.

(** A successor with a client type, a version, one more public name and
    a private one; no [__all__]. *)
Definition sdk : namespace :=
  {[ "RailScoreClient" := VRef 1; "__version__" := VStr "2.1.0";
     "RAILScoreError" := VRef 2; "_http" := VRef 3 ]}.


Definition process (found : gmap string (exn + namespace)) (a : action) : world :=
  {| sys_modules := ∅; installed := found;
     warn_filter := λ _, a; events := [] |}.

(** The successor is installed and nothing is loaded yet. *)
Definition fresh_process : world :=
  process {[ successor_name := inr sdk ]} ActDefault.

(** The successor is not installed. *)
Definition bare_process : world := process ∅ ActDefault.

(** The interpreter runs with warnings turned into errors. *)
Definition strict_process : world :=
  process {[ successor_name := inr sdk ]} ActError.





End Samples.

(** ** Lemmas on the monad *)

Lemma world_eq (w1 w2 : world) :
  sys_modules w1 = sys_modules w2 → installed w1 = installed w2 →
  warn_filter w1 = warn_filter w2 → events w1 = events w2 → w1 = w2.
Proof. destruct w1, w2; simpl; congruence. Qed.

Lemma bind_run {A B} (m : exec A) (f : A → exec B) (w : world) :
  (m ≫= f) w =
  match m w with
  | (Ok a, w') => f a w'
  | (Raise e, w') => (Raise e, w')
  end.
Proof. reflexivity. Qed.

Lemma bind_ok {A B} (m : exec A) (f : A → exec B) w b w' :
  (m ≫= f) w = (Ok b, w') →
  ∃ a w1, m w = (Ok a, w1) ∧ f a w1 = (Ok b, w').
Proof.
  rewrite bind_run. destruct (m w) as [[a|e] w1]; [eauto | discriminate].
Qed.

(** ** Lemmas on binding names *)

Lemma store_name_run n v w : store_name n v w = (Ok (), bound [(n, v)] w).
Proof. reflexivity. Qed.

Lemma bound_nil w : bound [] w = w.
Proof.
  apply world_eq; simpl; try done.
  - by apply alter_id.
  - by rewrite app_nil_r.
Qed.

Lemma bind_in_app l1 l2 ns : bind_in (l1 ++ l2) ns = bind_in l2 (bind_in l1 ns).
Proof. apply foldl_app. Qed.

Lemma bound_bound l1 l2 w : bound l2 (bound l1 w) = bound (l1 ++ l2) w.
Proof.
  apply world_eq; simpl; try done.
  - rewrite alter_alter_eq. apply alter_ext. intros ns _. simpl.
    by rewrite bind_in_app.
  - by rewrite fmap_app, app_assoc.
Qed.

Lemma bound_lookup_shim l w :
  sys_modules (bound l w) !! shim_name = bind_in l <$> sys_modules w !! shim_name.
Proof. simpl. apply lookup_alter_eq. Qed.

Lemma bound_lookup_other l w k :
  k ≠ shim_name → sys_modules (bound l w) !! k = sys_modules w !! k.
Proof. intros Hk. simpl. by apply lookup_alter_ne. Qed.

Lemma shim_ns_bound l w ns :
  sys_modules w !! shim_name = Some ns → shim_ns (bound l w) = bind_in l ns.
Proof. intros H. unfold shim_ns. by rewrite bound_lookup_shim, H. Qed.

(** ** Lemmas on the wildcard import *)

Section Star.
Variables (m : string) (sdk : namespace).

(** Whatever its outcome, the loop has bound names of the successor to
    their values there, and has done nothing else. *)
Lemma star_loop_bound skip items w r w' :
  for_each (star_item m sdk skip) items w = (r, w') →
  ∃ l, w' = bound l w ∧ Forall (λ p, sdk !! p.1 = Some p.2) l.
Proof.
  revert w. induction items as [|it items IH]; intros w H.
  - cbn in H. injection H as <- <-. exists []. by rewrite bound_nil.
  - cbn [for_each] in H. rewrite bind_run in H.
    destruct it as [n| | |]; cbn [star_item] in H;
      try (injection H as <- <-; exists []; by rewrite bound_nil).
    destruct (skip && negb (is_public n)).
    + cbn in H. by apply IH.
    + destruct (sdk !! n) as [v|] eqn:Hn.
      * rewrite store_name_run in H. apply IH in H as (l & -> & Hl).
        exists ((n, v) :: l). rewrite bound_bound. split; [done|].
        by constructor.
      * injection H as <- <-. exists []. by rewrite bound_nil.
Qed.

(** With a declared [__all__]: the loop succeeds exactly when every item
    names something the successor defines, and then binds them all. *)
Lemma star_loop_all items w :
  forallb (item_exportable sdk) items = true →
  for_each (star_item m sdk false) items w =
    (Ok (), bound (omap (surface_item sdk) items) w).
Proof.
  revert w. induction items as [|it items IH]; intros w H.
  - cbn. by rewrite bound_nil.
  - cbn [forallb] in H. apply andb_prop in H as [Hit H].
    cbn [for_each]. rewrite bind_run.
    destruct it as [n| | |]; try discriminate.
    cbn [item_exportable] in Hit. apply bool_decide_eq_true in Hit as [v Hv].
    cbn [star_item andb]. rewrite Hv, store_name_run, IH by done.
    cbn [omap list_omap surface_item]. rewrite Hv. cbn [fmap option_fmap option_map].
    by rewrite bound_bound.
Qed.

Lemma star_loop_all_ok items w w' :
  for_each (star_item m sdk false) items w = (Ok (), w') →
  forallb (item_exportable sdk) items = true.
Proof.
  revert w. induction items as [|it items IH]; intros w H; [done|].
  cbn [for_each] in H. apply bind_ok in H as (? & w1 & H1 & H2).
  cbn [forallb]. apply andb_true_intro. split; [|by eapply IH].
  destruct it as [n| | |]; try discriminate.
  cbn [star_item andb] in H1. cbn [item_exportable].
  apply bool_decide_eq_true. destruct (sdk !! n); [eauto | discriminate].
Qed.

(** Without [__all__]: the loop over the keys binds the public ones. *)
Lemma star_loop_keys (l : list (string * value)) w :
  Forall (λ p, sdk !! p.1 = Some p.2) l →
  for_each (star_item m sdk true) (VStr <$> l.*1) w =
    (Ok (), bound (filter (λ p, is_public p.1) l) w).
Proof.
  revert w. induction l as [|[n v] l IH]; intros w H.
  - cbn. by rewrite bound_nil.
  - apply Forall_cons in H as [Hn H]. simpl in Hn.
    cbn [fmap list_fmap fst for_each]. rewrite bind_run.
    cbn [star_item andb]. rewrite filter_cons. cbn [fst].
    destruct (is_public n) eqn:Hp; cbn [negb].
    + rewrite decide_True by done.
      rewrite Hn, store_name_run. rewrite (IH _ H). by rewrite bound_bound.
    + rewrite decide_False by (by intros ?).
      cbn. by apply IH.
Qed.

End Star.

Lemma import_module_run m w :
  import_module m w =
  match resolve m w with
  | inl e => (Raise e, w)
  | inr ns => (Ok ns, with_module m ns w)
  end.
Proof.
  unfold import_module, resolve, with_module.
  destruct (sys_modules w !! m) as [ns|]; [done|].
  by destruct (installed w !! m) as [[e|ns]|].
Qed.

Lemma with_module_lookup m ns w :
  resolve m w = inr ns → sys_modules (with_module m ns w) !! m = Some ns.
Proof.
  unfold resolve, with_module. destruct (sys_modules w !! m) as [ns'|] eqn:H.
  - intros [= <-]. done.
  - intros _. simpl. apply lookup_insert_eq.
Qed.

Lemma with_module_lookup_ne m ns w k :
  k ≠ m → sys_modules (with_module m ns w) !! k = sys_modules w !! k.
Proof.
  intros Hk. unfold with_module. destruct (sys_modules w !! m); [done|].
  simpl. by apply lookup_insert_ne.
Qed.

(** [from m import *], by cases on what [m] resolves to. *)
Lemma import_star_unresolved m w e :
  resolve m w = inl e → import_star m w = (Raise e, w).
Proof. intros H. unfold import_star. by rewrite bind_run, import_module_run, H. Qed.

Lemma import_star_exportable m w sdk :
  resolve m w = inr sdk → wildcard_exportable sdk = true →
  import_star m w = (Ok (), bound (public_surface sdk) (with_module m sdk w)).
Proof.
  intros H Hx. unfold import_star. rewrite bind_run, import_module_run, H.
  unfold wildcard_exportable in Hx. unfold star_items, public_surface.
  destruct (sdk !! "__all__") as [[| items | |]|] eqn:Hall; try discriminate.
  - by apply star_loop_all.
  - apply star_loop_keys. apply Forall_forall. intros [n v] Hin.
    by apply elem_of_map_to_list in Hin.
Qed.

Lemma import_star_not_exportable m w sdk :
  resolve m w = inr sdk → wildcard_exportable sdk = false →
  ∃ e l, import_star m w = (Raise e, bound l (with_module m sdk w)) ∧
         Forall (λ p, sdk !! p.1 = Some p.2) l.
Proof.
  intros H Hx. unfold import_star. rewrite bind_run, import_module_run, H.
  unfold wildcard_exportable in Hx. unfold star_items.
  destruct (sdk !! "__all__") as [[| items | |]|] eqn:Hall; try discriminate;
    try (eexists _, []; rewrite bound_nil; split; [reflexivity | constructor]).
  destruct (for_each (star_item m sdk false) items (with_module m sdk w))
    as [[[]|e] w'] eqn:Hrun.
  - apply star_loop_all_ok in Hrun. congruence.
  - apply star_loop_bound in Hrun as (l & -> & Hl). eauto.
Qed.

(** ** The module body, phase by phase *)

Lemma body_start w :
  rail_score_body (set_modules (insert shim_name fresh_module) w) =
  match warn_filter w DeprecationWarning with
  | ActError =>
      (Raise (WarningRaised DeprecationWarning Texts.NOTICE), started w)
  | _ => body_tail (started w)
  end.
Proof.
  assert (Hw : add_event the_notice
            (bound [("warnings", VModule "warnings")]
               (bound [("__doc__", VStr Texts.DOC)]
                  (set_modules (insert shim_name fresh_module) w))) = started w).
  { apply world_eq; simpl; try done.
    - by rewrite !alter_insert_eq.
    - by rewrite <- !app_assoc. }
  unfold rail_score_body, import_runtime, warn.
  rewrite bind_run, store_name_run, bind_run, store_name_run.
  rewrite bind_run. rewrite (bind_run (log _)). unfold log at 1.
  fold the_notice. rewrite Hw. rewrite bind_run. unfold ask_filter at 1.
  change (warn_filter (started w)) with (warn_filter w).
  by destruct (warn_filter w DeprecationWarning).
Qed.

Lemma resolve_started w : resolve successor_name (started w) = resolve successor_name w.
Proof.
  unfold resolve. simpl. rewrite lookup_insert_ne by done. done.
Qed.

Section Tail.
Variables (W : world) (ns0 sdk : namespace).
Hypothesis shim_loaded : sys_modules W !! shim_name = Some ns0.
Hypothesis found : resolve successor_name W = inr sdk.

Local Abbreviation W1 := (with_module successor_name sdk W).
Local Abbreviation W2 := (bound (public_surface sdk) W1).

Lemma tail_not_exportable :
  wildcard_exportable sdk = false →
  ∃ e l, body_tail W = (Raise e, bound l W1) ∧
         Forall (λ p, sdk !! p.1 = Some p.2) l.
Proof.
  intros Hx. unfold body_tail. rewrite bind_run.
  destruct (import_star_not_exportable _ _ _ found Hx) as (e & l & Hrun & Hl).
  fold successor_name. rewrite Hrun. eauto.
Qed.

Section Exportable.
Hypothesis exportable : wildcard_exportable sdk = true.

Lemma tail_after_star :
  body_tail W =
  (import_from "rail_score_sdk" ["RailScoreClient"; "__version__"] ;;
   client ← load_name "RailScoreClient";
   store_name "RailScore" client ;;
   store_name "__all__" EXPORTS) W2.
Proof.
  unfold body_tail. rewrite bind_run. fold successor_name.
  by rewrite (import_star_exportable _ _ _ found exportable).
Qed.

Lemma successor_cached : sys_modules W2 !! successor_name = Some sdk.
Proof.
  rewrite bound_lookup_other by done.
  by apply with_module_lookup.
Qed.

Lemma import_successor_again : import_module successor_name W2 = (Ok sdk, W2).
Proof. unfold import_module. by rewrite successor_cached. Qed.

Lemma tail_missing_client :
  sdk !! "RailScoreClient" = None →
  body_tail W = (Raise (ImportError "RailScoreClient" successor_name), W2).
Proof.
  intros Hc. rewrite tail_after_star. rewrite bind_run.
  unfold import_from. rewrite bind_run. fold successor_name.
  rewrite import_successor_again. cbn [for_each]. rewrite bind_run.
  by rewrite Hc.
Qed.

Lemma tail_missing_version client :
  sdk !! "RailScoreClient" = Some client →
  sdk !! "__version__" = None →
  body_tail W =
    (Raise (ImportError "__version__" successor_name),
     bound (public_surface sdk ++ [("RailScoreClient", client)]) W1).
Proof.
  intros Hc Hv. rewrite tail_after_star. rewrite bind_run.
  unfold import_from. rewrite bind_run. fold successor_name.
  rewrite import_successor_again. cbn [for_each]. rewrite bind_run.
  rewrite Hc, store_name_run. rewrite bind_run, Hv.
  by rewrite bound_bound.
Qed.

Lemma tail_ok client version :
  sdk !! "RailScoreClient" = Some client →
  sdk !! "__version__" = Some version →
  body_tail W =
    (Ok (), bound (public_surface sdk ++ own_bindings client version) W1).
Proof.
  intros Hc Hv. rewrite tail_after_star. rewrite bind_run.
  unfold import_from. rewrite bind_run. fold successor_name.
  rewrite import_successor_again. cbn [for_each]. rewrite bind_run.
  rewrite Hc, store_name_run. rewrite bind_run, Hv, store_name_run.
  cbn [mret exec_ret]. rewrite !bound_bound.
  rewrite bind_run. unfold load_name.
  assert (Hshim : sys_modules W1 !! shim_name = Some ns0).
  { by rewrite with_module_lookup_ne. }
  rewrite (shim_ns_bound _ _ _ Hshim), !bind_in_app.
  cbn [bind_in foldl fst snd].
  rewrite lookup_insert_ne by done. rewrite lookup_insert_eq.
  rewrite bind_run, store_name_run, store_name_run, !bound_bound.
  by rewrite <- !app_assoc.
Qed.

End Exportable.
End Tail.

(** ** A first load, case by case *)

Section FirstLoad.
Variable w : world.
Hypothesis unloaded : sys_modules w !! shim_name = None.

Lemma load_run :
  import_rail_score w =
  match rail_score_body (set_modules (insert shim_name fresh_module) w) with
  | (Ok _, w') => (Ok (shim_ns w'), w')
  | (Raise e, w') => (Raise e, unload w')
  end.
Proof. unfold import_rail_score. by rewrite unloaded. Qed.

Lemma started_shim : sys_modules (started w) !! shim_name = Some preamble_ns.
Proof. simpl. apply lookup_insert_eq. Qed.

Lemma load_warning_raised :
  warn_filter w DeprecationWarning = ActError →
  import_rail_score w =
    (Raise (WarningRaised DeprecationWarning Texts.NOTICE), unload (started w)).
Proof. intros Hf. by rewrite load_run, body_start, Hf. Qed.

Section Warned.
Hypothesis lenient : warn_filter w DeprecationWarning ≠ ActError.

Lemma load_tail :
  import_rail_score w =
  match body_tail (started w) with
  | (Ok _, w') => (Ok (shim_ns w'), w')
  | (Raise e, w') => (Raise e, unload w')
  end.
Proof.
  rewrite load_run, body_start.
  by destruct (warn_filter w DeprecationWarning).
Qed.

Lemma load_unresolved e :
  resolve successor_name w = inl e →
  import_rail_score w = (Raise e, unload (started w)).
Proof.
  intros Hr. rewrite load_tail. unfold body_tail. rewrite bind_run.
  fold successor_name.
  by rewrite (import_star_unresolved _ _ e) by (by rewrite resolve_started).
Qed.

Section Found.
Variable sdk : namespace.
Hypothesis found : resolve successor_name w = inr sdk.

Lemma found_started : resolve successor_name (started w) = inr sdk.
Proof. by rewrite resolve_started. Qed.

Lemma load_not_exportable :
  wildcard_exportable sdk = false →
  ∃ e l, import_rail_score w =
           (Raise e, unload (bound l (with_module successor_name sdk (started w)))).
Proof.
  intros Hx. rewrite load_tail.
  destruct (tail_not_exportable _ _ found_started Hx) as (e & l & -> & _). eauto.
Qed.

Lemma load_missing_client :
  wildcard_exportable sdk = true → sdk !! "RailScoreClient" = None →
  import_rail_score w =
    (Raise (ImportError "RailScoreClient" successor_name),
     unload (bound (public_surface sdk)
               (with_module successor_name sdk (started w)))).
Proof.
  intros Hx Hc. rewrite load_tail.
  by rewrite (tail_missing_client _ _ found_started Hx Hc).
Qed.

Lemma load_missing_version client :
  wildcard_exportable sdk = true →
  sdk !! "RailScoreClient" = Some client → sdk !! "__version__" = None →
  import_rail_score w =
    (Raise (ImportError "__version__" successor_name),
     unload (bound (public_surface sdk ++ [("RailScoreClient", client)])
               (with_module successor_name sdk (started w)))).
Proof.
  intros Hx Hc Hv. rewrite load_tail.
  by rewrite (tail_missing_version _ _ found_started Hx _ Hc Hv).
Qed.

Lemma load_ok client version :
  wildcard_exportable sdk = true →
  sdk !! "RailScoreClient" = Some client →
  sdk !! "__version__" = Some version →
  import_rail_score w =
    (Ok (final_ns sdk client version), loaded sdk client version w).
Proof.
  intros Hx Hc Hv. rewrite load_tail.
  rewrite (tail_ok _ _ _ started_shim found_started Hx _ _ Hc Hv).
  f_equal. erewrite shim_ns_bound; [done|].
  rewrite with_module_lookup_ne by done. apply started_shim.
Qed.

End Found.
End Warned.

(** A load that succeeded: the filter let the warning through, the
    successor was found, its surface was exportable and it had both names
    of line 40. *)
Lemma load_ok_inv ns w' :
  import_rail_score w = (Ok ns, w') →
  ∃ sdk client version,
    warn_filter w DeprecationWarning ≠ ActError ∧
    resolve successor_name w = inr sdk ∧
    wildcard_exportable sdk = true ∧
    sdk !! "RailScoreClient" = Some client ∧
    sdk !! "__version__" = Some version ∧
    ns = final_ns sdk client version ∧
    w' = loaded sdk client version w.
Proof.
  intros H.
  destruct (decide (warn_filter w DeprecationWarning = ActError)) as [Hf|Hf].
  { rewrite (load_warning_raised Hf) in H. discriminate. }
  destruct (resolve successor_name w) as [e|sdk] eqn:Hr.
  { rewrite (load_unresolved Hf _ Hr) in H. discriminate. }
  destruct (wildcard_exportable sdk) eqn:Hx.
  2:{ destruct (load_not_exportable Hf _ Hr Hx) as (e & l & He).
      rewrite He in H. discriminate. }
  destruct (sdk !! "RailScoreClient") as [client|] eqn:Hc.
  2:{ rewrite (load_missing_client Hf _ Hr Hx Hc) in H. discriminate. }
  destruct (sdk !! "__version__") as [version|] eqn:Hv.
  2:{ rewrite (load_missing_version Hf _ Hr _ Hx Hc Hv) in H. discriminate. }
  rewrite (load_ok Hf _ Hr _ _ Hx Hc Hv) in H. injection H as <- <-.
  exists sdk, client, version. done.
Qed.

(** A load that failed: the state left is that of an interrupted load,
    without the module. *)
Lemma load_raise_inv e w' :
  import_rail_score w = (Raise e, w') →
  ∃ W l, w' = unload (bound l W) ∧
    (W = started w ∨
     ∃ sdk, resolve successor_name w = inr sdk ∧
            warn_filter w DeprecationWarning ≠ ActError ∧
            W = with_module successor_name sdk (started w)).
Proof.
  intros H.
  destruct (decide (warn_filter w DeprecationWarning = ActError)) as [Hf|Hf].
  { rewrite (load_warning_raised Hf) in H. injection H as <- <-.
    exists (started w), []. rewrite bound_nil. eauto. }
  destruct (resolve successor_name w) as [e0|sdk] eqn:Hr.
  { rewrite (load_unresolved Hf _ Hr) in H. injection H as <- <-.
    exists (started w), []. rewrite bound_nil. eauto. }
  exists (with_module successor_name sdk (started w)).
  destruct (wildcard_exportable sdk) eqn:Hx.
  2:{ destruct (load_not_exportable Hf _ Hr Hx) as (e0 & l & He).
      rewrite He in H. injection H as <- <-. exists l. eauto 6. }
  destruct (sdk !! "RailScoreClient") as [client|] eqn:Hc.
  2:{ rewrite (load_missing_client Hf _ Hr Hx Hc) in H. injection H as <- <-.
      eexists. eauto 6. }
  destruct (sdk !! "__version__") as [version|] eqn:Hv.
  2:{ rewrite (load_missing_version Hf _ Hr _ Hx Hc Hv) in H.
      injection H as <- <-. eexists. eauto 6. }
  rewrite (load_ok Hf _ Hr _ _ Hx Hc Hv) in H. discriminate.
Qed.

End FirstLoad.

(** ** The state a load leaves *)

Lemma final_ns_own sdk client version :
  final_ns sdk client version !! "RailScoreClient" = Some client ∧
  final_ns sdk client version !! "__version__" = Some version ∧
  final_ns sdk client version !! "RailScore" = Some client ∧
  final_ns sdk client version !! "__all__" = Some EXPORTS.
Proof.
  unfold final_ns. rewrite bind_in_app.
  set (ns := bind_in (public_surface sdk) preamble_ns).
  cbn [own_bindings bind_in foldl fst snd].
  repeat split; by simplify_map_eq.
Qed.

Lemma loaded_shim sdk client version w :
  sys_modules (loaded sdk client version w) !! shim_name
  = Some (final_ns sdk client version).
Proof.
  unfold loaded. rewrite bound_lookup_shim.
  rewrite with_module_lookup_ne by done. simpl.
  by rewrite lookup_insert_eq.
Qed.

Lemma loaded_successor sdk client version w :
  resolve successor_name w = inr sdk →
  sys_modules (loaded sdk client version w) !! successor_name = Some sdk.
Proof.
  intros H. unfold loaded. rewrite bound_lookup_other by done.
  apply with_module_lookup. by rewrite resolve_started.
Qed.

Lemma with_module_events w sdk :
  events (with_module successor_name sdk (started w))
  = events (started w) ++ load_events w.
Proof.
  unfold with_module, load_events. simpl.
  rewrite lookup_insert_ne by done.
  destruct (sys_modules w !! successor_name); simpl; [|done].
  by rewrite app_nil_r.
Qed.

Lemma loaded_events sdk client version w :
  events (loaded sdk client version w) =
  events w
  ++ [EBind "__doc__" (VStr Texts.DOC); EBind "warnings" (VModule "warnings")]
  ++ [the_notice]
  ++ load_events w
  ++ ((λ p, EBind p.1 p.2) <$> public_surface sdk)
  ++ [EBind "RailScoreClient" client; EBind "__version__" version]
  ++ [EBind "RailScore" client]
  ++ [EBind "__all__" EXPORTS].
Proof.
  unfold loaded. cbn [bound events]. rewrite with_module_events.
  rewrite fmap_app. simpl. by rewrite <- !app_assoc.
Qed.

(** A second import finds the module in the cache and does nothing. *)
Lemma import_cached w ns :
  sys_modules w !! shim_name = Some ns → import_rail_score w = (Ok ns, w).
Proof. intros H. unfold import_rail_score. by rewrite H. Qed.

Lemma unload_shim W : sys_modules (unload W) !! shim_name = None.
Proof. simpl. apply lookup_delete_eq. Qed.

Lemma unload_started_cache w l :
  sys_modules w !! shim_name = None →
  sys_modules (unload (bound l (started w))) = sys_modules w.
Proof.
  intros H. simpl. rewrite delete_alter_eq. by apply delete_insert_id.
Qed.

Lemma unload_found_cache w l sdk :
  sys_modules w !! shim_name = None →
  sys_modules (unload (bound l (with_module successor_name sdk (started w))))
  = sys_modules (with_module successor_name sdk w).
Proof.
  intros H. cbn [unload set_modules sys_modules bound].
  rewrite delete_alter_eq. unfold with_module. simpl.
  rewrite lookup_insert_ne by done.
  destruct (sys_modules w !! successor_name); simpl.
  - by apply delete_insert_id.
  - rewrite delete_insert_ne by done. by rewrite delete_insert_id.
Qed.

(** ** Counting the notices *)

Lemma notices_bound l W : notices (bound l W) = notices W.
Proof.
  unfold notices. simpl. rewrite filter_app.
  assert (Hl : filter (λ e, is_warning e = true) ((λ p, EBind p.1 p.2) <$> l) = []).
  { induction l as [|p l IH]; [done|]. simpl. by rewrite filter_cons_False. }
  by rewrite Hl, app_nil_r.
Qed.

Lemma notices_unload W : notices (unload W) = notices W.
Proof. reflexivity. Qed.

Lemma notices_started w : notices (started w) = notices w ++ [the_notice].
Proof. unfold notices. simpl. by rewrite filter_app. Qed.

Lemma notices_with_module m ns W : notices (with_module m ns W) = notices W.
Proof.
  unfold with_module. destruct (sys_modules W !! m); [done|].
  unfold notices. simpl. rewrite filter_app. simpl. by rewrite app_nil_r.
Qed.

(** ** The texts *)

Lemma append_cons a s t : String a s +:+ t = String a (s +:+ t).
Proof. reflexivity. Qed.

Lemma starts_with_spec p s :
  Text.starts_with p s = true ↔ ∃ t, s = p +:+ t.
Proof.
  revert s. induction p as [|a p IH]; intros s; simpl.
  - split; [eauto | done].
  - destruct s as [|b s].
    + split; [done | intros [t Ht]; discriminate].
    + setoid_rewrite append_cons.
      destruct (Ascii.eqb_spec a b) as [->|Hab].
      * rewrite IH. split; intros [t Ht]; exists t; congruence.
      * split; [done | intros [t Ht]; congruence].
Qed.

Lemma contains_spec needle hay :
  Text.contains needle hay = true ↔ Text.occurs_in needle hay.
Proof.
  unfold Text.occurs_in. induction hay as [|c hay IH]; simpl.
  - rewrite orb_false_r, starts_with_spec. split.
    + intros [t Ht]. by exists "", t.
    + intros ([|??] & post & H); [eauto | discriminate].
  - rewrite orb_true_iff, starts_with_spec, IH. split.
    + intros [[t Ht] | (pre & post & H)].
      * by exists "", t.
      * exists (String c pre), post. by rewrite append_cons, H.
    + intros ([|c' pre] & post & H).
      * left. eauto.
      * right. exists pre, post. rewrite append_cons in H. congruence.
Qed.

Lemma contains_false needle hay :
  Text.contains needle hay = false → ¬ Text.occurs_in needle hay.
Proof. intros H Ho. apply contains_spec in Ho. congruence. Qed.

Lemma exported_names_final sdk client version :
  exported_names (final_ns sdk client version) = Some [legacy_name; new_name].
Proof.
  unfold exported_names.
  by destruct (final_ns_own sdk client version) as (_ & _ & _ & ->).
Qed.

Lemma bind_event_in_surface (l : list (string * value)) n v :
  EBind n v ∈ ((λ p, EBind p.1 p.2) <$> l) → (n, v) ∈ l.
Proof.
  intros Hin. apply list_elem_of_fmap in Hin as ([n' v'] & Heq & Hin).
  simpl in Heq. by injection Heq as -> ->.
Qed.

(** Every first load issues the notice, once. *)
Lemma load_notices w r w' :
  sys_modules w !! shim_name = None →
  import_rail_score w = (r, w') →
  notices w' = notices w ++ [the_notice].
Proof.
  intros Hun Hload. destruct r as [ns|e].
  - apply (load_ok_inv _ Hun) in Hload
      as (sdk & client & version & _ & _ & _ & _ & _ & -> & ->).
    unfold loaded.
    by rewrite notices_bound, notices_with_module, notices_started.
  - apply (load_raise_inv _ Hun) in Hload
      as (W & l & -> & [-> | (sdk & _ & _ & ->)]);
      rewrite notices_unload, notices_bound, ?notices_with_module;
      apply notices_started.
Qed.

Lemma with_module_installed m ns W :
  installed (with_module m ns W) = installed W ∧
  warn_filter (with_module m ns W) = warn_filter W.
Proof. unfold with_module. by destruct (sys_modules W !! m). Qed.


Lemma warn_run message category level w :
  warn message category level w =
  (match warn_filter w category with
   | ActError => Raise (WarningRaised category message)
   | _ => Ok ()
   end, add_event (EWarn category message level) w).
Proof.
  unfold warn. rewrite bind_run. unfold log at 1. rewrite bind_run.
  unfold ask_filter at 1. simpl. by destruct (warn_filter w category).
Qed.

(** Closes [t = v] on closed terms by evaluating both sides in the virtual
    machine, without displaying the normal forms. *)
Ltac by_evaluation :=
  lazymatch goal with
  | |- _ = ?v => vm_cast_no_check (@eq_refl _ v)
  end.

(** * The properties of the shim *)

(** C1 (alias identity).  After a successful first load the legacy name
    [RailScore] and the new name [RailScoreClient] are bound, in the shim,
    to the very object the successor module has under [RailScoreClient]:
    the same identity, not another object.  Hence calling any method
    through one name or the other gives the same result, whatever the
    runtime's dispatch does with the object. *)
Theorem alias_identity {R} (invoke : value → string → list value → R)
    (w : world) (ns : namespace) (w' : world) :
  sys_modules w !! shim_name = None →
  import_rail_score w = (Ok ns, w') →
  ∃ sdk client,
    sys_modules w' !! successor_name = Some sdk ∧
    sys_modules w' !! shim_name = Some ns ∧
    sdk !! new_name = Some client ∧
    ns !! legacy_name = Some client ∧
    ns !! new_name = Some client ∧
    ∀ method args,
      call_through invoke ns legacy_name method args
      = call_through invoke ns new_name method args.
Proof.
  intros Hun Hload.
  apply (load_ok_inv _ Hun) in Hload
    as (sdk & client & version & _ & Hr & _ & Hc & _ & -> & ->).
  destruct (final_ns_own sdk client version) as (Hnew & _ & Hold & _).
  exists sdk, client. split_and!.
  - by apply loaded_successor.
  - apply loaded_shim.
  - done.
  - done.
  - done.
  - intros method args. unfold call_through, legacy_name, new_name.
    by rewrite Hold, Hnew.
Qed.

Lemma alias_identity_witness :
  ∃ sdk client,
    sys_modules (loaded Samples.sdk (VRef 1) (VStr "2.1.0") Samples.fresh_process)
      !! successor_name = Some sdk ∧
    sys_modules (loaded Samples.sdk (VRef 1) (VStr "2.1.0") Samples.fresh_process)
      !! shim_name = Some (final_ns Samples.sdk (VRef 1) (VStr "2.1.0")) ∧
    sdk !! new_name = Some client ∧
    final_ns Samples.sdk (VRef 1) (VStr "2.1.0") !! legacy_name = Some client ∧
    final_ns Samples.sdk (VRef 1) (VStr "2.1.0") !! new_name = Some client ∧
    ∀ method args,
      call_through (λ obj _ _, obj) (final_ns Samples.sdk (VRef 1) (VStr "2.1.0"))
        legacy_name method args
      = call_through (λ obj _ _, obj) (final_ns Samples.sdk (VRef 1) (VStr "2.1.0"))
          new_name method args.
Proof.
  apply (alias_identity (λ obj _ _, obj) Samples.fresh_process).
  - by vm_compute.
  - by_evaluation.
Defined.



(** C3 (export completeness).  After a successful first load [__all__] is
    the list of exactly the two names [RailScore] and [RailScoreClient].
    Binding it is the last effect of the load, it is the only binding of
    [__all__] made by a statement of the shim (any earlier one can only be
    a name the wildcard import copied from the successor), and importing
    the module again changes nothing. *)
Theorem export_set_exact (w : world) (ns : namespace) (w' : world) :
  sys_modules w !! shim_name = None →
  import_rail_score w = (Ok ns, w') →
  ns !! "__all__" = Some EXPORTS ∧
  exported_names ns = Some [legacy_name; new_name] ∧
  (∃ earlier,
     events w' = events w ++ earlier ++ [EBind "__all__" EXPORTS] ∧
     ∀ v, EBind "__all__" v ∈ earlier →
          ∃ sdk, resolve successor_name w = inr sdk ∧
                 ("__all__", v) ∈ public_surface sdk) ∧
  import_rail_score w' = (Ok ns, w').
Proof.
  intros Hun Hload.
  apply (load_ok_inv _ Hun) in Hload
    as (sdk & client & version & _ & Hr & _ & _ & _ & -> & ->).
  destruct (final_ns_own sdk client version) as (_ & _ & _ & Hall).
  split_and!.
  - done.
  - apply exported_names_final.
  - exists ([EBind "__doc__" (VStr Texts.DOC); EBind "warnings" (VModule "warnings")]
            ++ [the_notice] ++ load_events w
            ++ ((λ p, EBind p.1 p.2) <$> public_surface sdk)
            ++ [EBind "RailScoreClient" client; EBind "__version__" version]
            ++ [EBind "RailScore" client]).
    split.
    + rewrite loaded_events. by rewrite <- !app_assoc.
    + intros v Hin. exists sdk. split; [done|].
      apply bind_event_in_surface.
      rewrite !elem_of_app in Hin. unfold load_events, the_notice in Hin.
      destruct (sys_modules w !! successor_name);
        rewrite ?elem_of_cons, ?elem_of_nil in Hin;
        repeat match type of Hin with
               | _ ∨ _ => destruct Hin as [Hin|Hin]
               end;
        by try discriminate.
  - apply import_cached, loaded_shim.
Qed.

Lemma export_set_exact_witness :
  final_ns Samples.sdk (VRef 1) (VStr "2.1.0") !! "__all__" = Some EXPORTS ∧
  exported_names (final_ns Samples.sdk (VRef 1) (VStr "2.1.0"))
    = Some [legacy_name; new_name] ∧
  (∃ earlier,
     events (loaded Samples.sdk (VRef 1) (VStr "2.1.0") Samples.fresh_process)
       = events Samples.fresh_process ++ earlier ++ [EBind "__all__" EXPORTS] ∧
     ∀ v, EBind "__all__" v ∈ earlier →
          ∃ sdk, resolve successor_name Samples.fresh_process = inr sdk ∧
                 ("__all__", v) ∈ public_surface sdk) ∧
  import_rail_score (loaded Samples.sdk (VRef 1) (VStr "2.1.0") Samples.fresh_process)
    = (Ok (final_ns Samples.sdk (VRef 1) (VStr "2.1.0")),
       loaded Samples.sdk (VRef 1) (VStr "2.1.0") Samples.fresh_process).
Proof.
  apply (export_set_exact Samples.fresh_process).
  - by vm_compute.
  - by_evaluation.
Defined.

(** C9 (version re-export).  After a successful first load the shim also
    binds [__version__], to the value the successor module has under that
    name, although [__version__] is not one of the exported names. *)
Theorem version_bound_not_exported (w : world) (ns : namespace) (w' : world) :
  sys_modules w !! shim_name = None →
  import_rail_score w = (Ok ns, w') →
  ∃ sdk version names,
    sys_modules w' !! successor_name = Some sdk ∧
    sdk !! "__version__" = Some version ∧
    ns !! "__version__" = Some version ∧
    exported_names ns = Some names ∧
    "__version__" ∉ names.
Proof.
  intros Hun Hload.
  apply (load_ok_inv _ Hun) in Hload
    as (sdk & client & version & _ & Hr & _ & _ & Hv & -> & ->).
  destruct (final_ns_own sdk client version) as (_ & Hver & _ & _).
  exists sdk, version, [legacy_name; new_name]. split_and!.
  - by apply loaded_successor.
  - done.
  - done.
  - apply exported_names_final.
  - intros Hin. rewrite !elem_of_cons, elem_of_nil in Hin.
    by destruct Hin as [?|[?|[]]].
Qed.

Lemma version_bound_not_exported_witness :
  ∃ sdk version names,
    sys_modules (loaded Samples.sdk (VRef 1) (VStr "2.1.0") Samples.fresh_process)
      !! successor_name = Some sdk ∧
    sdk !! "__version__" = Some version ∧
    final_ns Samples.sdk (VRef 1) (VStr "2.1.0") !! "__version__" = Some version ∧
    exported_names (final_ns Samples.sdk (VRef 1) (VStr "2.1.0")) = Some names ∧
    "__version__" ∉ names.
Proof.
  apply (version_bound_not_exported Samples.fresh_process).
  - by vm_compute.
  - by_evaluation.
Defined.



(** C6 (one notice per load).  A first load hands exactly one warning to
    the warnings machinery, the deprecation notice, whatever the outcome of
    the load; when the load has succeeded, importing the module again
    returns the cached module and leaves the state, hence the notices, as
    they are. *)
Theorem one_notice_per_load (w : world) (r : result namespace) (w' : world) :
  sys_modules w !! shim_name = None →
  import_rail_score w = (r, w') →
  notices w' = notices w ++ [EWarn DeprecationWarning Texts.NOTICE 2] ∧
  ∀ ns, r = Ok ns →
    import_rail_score w' = (Ok ns, w') ∧
    notices (import_rail_score w').2 = notices w'.
Proof.
  intros Hun Hload. split; [by eapply load_notices|].
  intros ns ->.
  apply (load_ok_inv _ Hun) in Hload
    as (sdk & client & version & _ & _ & _ & _ & _ & -> & ->).
  by rewrite (import_cached _ _ (loaded_shim sdk client version w)).
Qed.

Lemma one_notice_per_load_witness :
  notices (loaded Samples.sdk (VRef 1) (VStr "2.1.0") Samples.fresh_process)
    = notices Samples.fresh_process ++ [EWarn DeprecationWarning Texts.NOTICE 2] ∧
  ∀ ns, Ok (final_ns Samples.sdk (VRef 1) (VStr "2.1.0")) = Ok ns →
    import_rail_score (loaded Samples.sdk (VRef 1) (VStr "2.1.0") Samples.fresh_process)
      = (Ok ns, loaded Samples.sdk (VRef 1) (VStr "2.1.0") Samples.fresh_process) ∧
    notices (import_rail_score
               (loaded Samples.sdk (VRef 1) (VStr "2.1.0") Samples.fresh_process)).2
      = notices (loaded Samples.sdk (VRef 1) (VStr "2.1.0") Samples.fresh_process).
Proof.
  apply (one_notice_per_load Samples.fresh_process).
  - by vm_compute.
  - by_evaluation.
Defined.




(** C8 (the notice does not abort the load), as the code has it.  In a
    first load, unless the warning filter selects the action [error] for
    deprecation warnings, issuing the notice returns normally and the load
    goes on with the import of the successor; under the action [error] the
    call raises the warning as an exception and the load is aborted there,
    before the successor is imported. *)
Theorem notice_passes_unless_error_filter (w : world) :
  sys_modules w !! shim_name = None →
  (warn_filter w DeprecationWarning ≠ ActError →
     warn Texts.NOTICE DeprecationWarning 2 w = (Ok (), add_event the_notice w) ∧
     import_rail_score w =
       match body_tail (started w) with
       | (Ok _, w') => (Ok (shim_ns w'), w')
       | (Raise e, w') => (Raise e, unload w')
       end) ∧
  (warn_filter w DeprecationWarning = ActError →
     warn Texts.NOTICE DeprecationWarning 2 w
       = (Raise (WarningRaised DeprecationWarning Texts.NOTICE),
          add_event the_notice w) ∧
     import_rail_score w
       = (Raise (WarningRaised DeprecationWarning Texts.NOTICE),
          unload (started w))).
Proof.
  intros Hun. split; intros Hf.
  - split; [|by apply load_tail].
    rewrite warn_run. by destruct (warn_filter w DeprecationWarning).
  - split; [|by apply load_warning_raised].
    rewrite warn_run. by rewrite Hf.
Qed.

Lemma notice_passes_unless_error_filter_witness :
  warn Texts.NOTICE DeprecationWarning 2 Samples.fresh_process
    = (Ok (), add_event the_notice Samples.fresh_process) ∧
  import_rail_score Samples.fresh_process =
    match body_tail (started Samples.fresh_process) with
    | (Ok _, w') => (Ok (shim_ns w'), w')
    | (Raise e, w') => (Raise e, unload w')
    end.
Proof.
  apply (notice_passes_unless_error_filter Samples.fresh_process).
  - by vm_compute.
  - by vm_compute.
Defined.

(** C8, as stated, fails: under the filter action [error] the call of
    [warnings.warn] raises the warning, and the load of the shim is aborted
    by it although the successor is installed. *)
Lemma notice_raises_under_error_filter :
  warn Texts.NOTICE DeprecationWarning 2 Samples.strict_process
    = (Raise (WarningRaised DeprecationWarning Texts.NOTICE),
       add_event the_notice Samples.strict_process) ∧
  import_rail_score Samples.strict_process
    = (Raise (WarningRaised DeprecationWarning Texts.NOTICE),
       unload (started Samples.strict_process)) ∧
  resolve successor_name Samples.strict_process = inr Samples.sdk.
Proof.
  split_and!.
  - by_evaluation.
  - by_evaluation.
  - by_evaluation.
Qed.



(** C4 (content of the notice), as the code has it.  The one warning a
    first load issues is of category [DeprecationWarning], and its text
    contains, verbatim, the uninstall command, the install command, the new
    import statement and the link to the package's documentation page.  It
    contains neither the old import statement nor the link to the
    repository: both are in the module docstring only. *)
Theorem notice_guidance (w : world) (r : result namespace) (w' : world) :
  sys_modules w !! shim_name = None →
  import_rail_score w = (r, w') →
  ∃ message,
    notices w' = notices w ++ [EWarn DeprecationWarning message 2] ∧
    Text.occurs_in Texts.uninstall_command message ∧
    Text.occurs_in Texts.install_command message ∧
    Text.occurs_in Texts.new_import message ∧
    Text.occurs_in Texts.docs_package message ∧
    ¬ Text.occurs_in Texts.old_import message ∧
    ¬ Text.occurs_in Texts.docs_repository message ∧
    Text.occurs_in Texts.old_import Texts.DOC ∧
    Text.occurs_in Texts.docs_repository Texts.DOC.
Proof.
  intros Hun Hload. exists Texts.NOTICE.
  split; [by eapply load_notices|].
  split_and!;
    first [ apply contains_spec; by vm_compute
          | apply contains_false; by vm_compute ].
Qed.

Lemma notice_guidance_witness :
  ∃ message,
    notices (loaded Samples.sdk (VRef 1) (VStr "2.1.0") Samples.fresh_process)
      = notices Samples.fresh_process ++ [EWarn DeprecationWarning message 2] ∧
    Text.occurs_in Texts.uninstall_command message ∧
    Text.occurs_in Texts.install_command message ∧
    Text.occurs_in Texts.new_import message ∧
    Text.occurs_in Texts.docs_package message ∧
    ¬ Text.occurs_in Texts.old_import message ∧
    ¬ Text.occurs_in Texts.docs_repository message ∧
    Text.occurs_in Texts.old_import Texts.DOC ∧
    Text.occurs_in Texts.docs_repository Texts.DOC.
Proof.
  apply (notice_guidance Samples.fresh_process
           (Ok (final_ns Samples.sdk (VRef 1) (VStr "2.1.0")))).
  - by vm_compute.
  - by_evaluation.
Defined.

(** C4, as stated, fails: the old import statement is not in the text of
    the notice. *)
Lemma notice_lacks_old_import :
  Text.contains Texts.old_import Texts.NOTICE = false ∧
  ¬ Text.occurs_in Texts.old_import Texts.NOTICE.
Proof. split; [by vm_compute | apply contains_false; by vm_compute]. Qed.

(** * Further properties of the load *)

(** ** The exception of a wildcard import *)

Lemma star_loop_error m sdk items e w :
  first_star_error m sdk items = Some e →
  ∃ l, for_each (star_item m sdk false) items w = (Raise e, bound l w).
Proof.
  revert w. induction items as [|it items IH]; intros w H; [discriminate|].
  cbn [for_each]. rewrite bind_run.
  destruct it as [n| | |]; cbn [first_star_error star_item andb] in *;
    try (injection H as <-; exists []; by rewrite bound_nil).
  destruct (sdk !! n) as [v|].
  - rewrite store_name_run. destruct (IH (bound [(n, v)] w) H) as [l ->].
    exists ((n, v) :: l). by rewrite bound_bound.
  - injection H as <-. exists []. by rewrite bound_nil.
Qed.

Lemma first_star_error_none m sdk items :
  first_star_error m sdk items = None ↔
  forallb (item_exportable sdk) items = true.
Proof.
  induction items as [|it items IH]; [done|].
  destruct it as [n| | |]; cbn [first_star_error forallb item_exportable andb];
    try done.
  destruct (sdk !! n) as [v|] eqn:Hn.
  - rewrite bool_decide_eq_true_2 by eauto. done.
  - rewrite bool_decide_eq_false_2 by (by intros [? ?]). done.
Qed.

Lemma star_error_none m sdk :
  star_error m sdk = None ↔ wildcard_exportable sdk = true.
Proof.
  unfold star_error, wildcard_exportable.
  destruct (sdk !! "__all__") as [[| items | |]|]; try done.
  apply first_star_error_none.
Qed.

Lemma import_star_error m w sdk e :
  resolve m w = inr sdk → star_error m sdk = Some e →
  ∃ l, import_star m w = (Raise e, bound l (with_module m sdk w)).
Proof.
  intros Hr He. unfold import_star. rewrite bind_run, import_module_run, Hr.
  unfold star_error in He. unfold star_items.
  destruct (sdk !! "__all__") as [[| items | |]|]; try discriminate;
    try (injection He as <-; exists []; by rewrite bound_nil).
  by apply star_loop_error.
Qed.

Lemma load_star_error w sdk e :
  sys_modules w !! shim_name = None →
  warn_filter w DeprecationWarning ≠ ActError →
  resolve successor_name w = inr sdk →
  star_error successor_name sdk = Some e →
  ∃ l, import_rail_score w =
         (Raise e, unload (bound l (with_module successor_name sdk (started w)))).
Proof.
  intros Hun Hf Hr He. rewrite (load_tail _ Hun Hf).
  unfold body_tail. rewrite bind_run. fold successor_name.
  rewrite <- resolve_started in Hr.
  destruct (import_star_error _ _ _ _ Hr He) as [l ->]. eauto.
Qed.

(** The outcome of a first load is the verdict. *)
Lemma load_result w :
  sys_modules w !! shim_name = None →
  (import_rail_score w).1
  = load_verdict (warn_filter w DeprecationWarning) (resolve successor_name w).
Proof.
  intros Hun.
  destruct (decide (warn_filter w DeprecationWarning = ActError)) as [Hf|Hf].
  { rewrite (load_warning_raised _ Hun Hf), Hf. done. }
  assert (Hv : ∀ found,
    load_verdict (warn_filter w DeprecationWarning) found
    = load_verdict ActDefault found).
  { intros found. by destruct (warn_filter w DeprecationWarning). }
  rewrite Hv. cbn [load_verdict].
  destruct (resolve successor_name w) as [e|sdk] eqn:Hr.
  { by rewrite (load_unresolved _ Hun Hf _ Hr). }
  destruct (star_error successor_name sdk) as [e|] eqn:He.
  { destruct (load_star_error _ _ _ Hun Hf Hr He) as [l ->]. done. }
  apply star_error_none in He.
  destruct (sdk !! "RailScoreClient") as [client|] eqn:Hc.
  2:{ by rewrite (load_missing_client _ Hun Hf _ Hr He Hc). }
  destruct (sdk !! "__version__") as [version|] eqn:Hver.
  - by rewrite (load_ok _ Hun Hf _ Hr _ _ He Hc Hver).
  - by rewrite (load_missing_version _ Hun Hf _ Hr _ He Hc Hver).
Qed.





(** ** What the wildcard import brings into the shim *)

Lemma bind_in_snoc l p ns : bind_in (l ++ [p]) ns = <[p.1 := p.2]> (bind_in l ns).
Proof. by rewrite bind_in_app. Qed.

(** When a name has one value throughout the list, binding the list leaves
    the name bound to that value. *)
Lemma bind_in_lookup_in (sdk : namespace) l ns0 n v :
  Forall (λ p, sdk !! p.1 = Some p.2) l →
  (n, v) ∈ l → bind_in l ns0 !! n = Some v.
Proof.
  induction l as [|[n' v'] l IH] using rev_ind; intros Hl Hin.
  - by apply elem_of_nil in Hin.
  - apply Forall_app in Hl as [Hl Hp]. rewrite Forall_singleton in Hp.
    simpl in Hp. rewrite bind_in_snoc. cbn [fst snd].
    destruct (decide (n' = n)) as [->|Hne].
    + rewrite lookup_insert_eq. f_equal.
      apply elem_of_app in Hin as [Hin|Hin].
      * eapply Forall_forall in Hl; [|exact Hin]. simpl in Hl. congruence.
      * apply list_elem_of_singleton in Hin. congruence.
    + rewrite lookup_insert_ne by done.
      apply elem_of_app in Hin as [Hin|Hin]; [by apply IH|].
      apply list_elem_of_singleton in Hin. congruence.
Qed.


Lemma elem_of_public_surface sdk n v :
  (n, v) ∈ public_surface sdk ↔ sdk !! n = Some v ∧ listed sdk n.
Proof.
  unfold public_surface, listed.
  destruct (sdk !! "__all__") as [[| items | |]|];
    try (rewrite elem_of_nil; tauto).
  - rewrite list_elem_of_omap. split.
    + intros (it & Hin & Hit). destruct it as [n'| | |]; try discriminate.
      simpl in Hit. destruct (sdk !! n') as [v'|] eqn:Hn'; [|discriminate].
      injection Hit as <- <-. done.
    + intros [Hn Hin]. exists (VStr n). split; [done|]. simpl. by rewrite Hn.
  - rewrite list_elem_of_filter, elem_of_map_to_list. simpl.
    rewrite Is_true_true. tauto.
Qed.

Lemma public_surface_sound sdk :
  Forall (λ p, sdk !! p.1 = Some p.2) (public_surface sdk).
Proof.
  apply Forall_forall. intros [n v] Hin.
  by apply elem_of_public_surface in Hin as [? _].
Qed.

(** X3 (re-export).  After a successful first load every name the wildcard
    import takes from the successor (the names of its [__all__], or its
    public names when it has none) is bound in the shim to the value the
    successor has for it, so code written against the old package finds
    the successor's API there.  The two exceptions are the names the shim
    assigns afterwards: [RailScore] and [__all__]. *)
Theorem successor_surface_reexported (w : world) (ns : namespace) (w' : world) :
  sys_modules w !! shim_name = None →
  import_rail_score w = (Ok ns, w') →
  ∃ sdk,
    resolve successor_name w = inr sdk ∧
    ∀ n v, sdk !! n = Some v → listed sdk n →
           n ≠ legacy_name → n ≠ "__all__" →
           ns !! n = Some v.
Proof.
  intros Hun Hload.
  apply (load_ok_inv _ Hun) in Hload
    as (sdk & client & version & _ & Hr & _ & Hc & Hv & -> & _).
  exists sdk. split; [done|]. intros n v Hn Hlisted Hlegacy Hall.
  unfold final_ns. rewrite bind_in_app.
  cbn [own_bindings bind_in foldl fst snd].
  rewrite lookup_insert_ne by done.
  rewrite lookup_insert_ne by (by intros ?; apply Hlegacy).
  destruct (decide (n = "__version__")) as [->|Hnv].
  { rewrite lookup_insert_eq. congruence. }
  rewrite lookup_insert_ne by done.
  destruct (decide (n = "RailScoreClient")) as [->|Hnc].
  { rewrite lookup_insert_eq. congruence. }
  rewrite lookup_insert_ne by done.
  apply (bind_in_lookup_in sdk); [apply public_surface_sound|].
  by apply elem_of_public_surface.
Qed.

Lemma successor_surface_reexported_witness :
  ∃ sdk,
    resolve successor_name Samples.fresh_process = inr sdk ∧
    ∀ n v, sdk !! n = Some v → listed sdk n →
           n ≠ legacy_name → n ≠ "__all__" →
           final_ns Samples.sdk (VRef 1) (VStr "2.1.0") !! n = Some v.
Proof.
  apply (successor_surface_reexported Samples.fresh_process _
           (loaded Samples.sdk (VRef 1) (VStr "2.1.0") Samples.fresh_process)).
  - by vm_compute.
  - by_evaluation.
Defined.



(** X7 (the shim's own wildcard surface).  After a successful first load
    the shim can itself be imported with a wildcard, and what such an
    import takes from it is exactly [RailScore] and [RailScoreClient], both
    the successor's client: the other names re-exported from the successor
    are reachable as attributes of the shim but are not passed on by
    [from rail_score import *]. *)
Theorem shim_wildcard_surface (w : world) (ns : namespace) (w' : world) :
  sys_modules w !! shim_name = None →
  import_rail_score w = (Ok ns, w') →
  ∃ sdk client,
    resolve successor_name w = inr sdk ∧
    sdk !! new_name = Some client ∧
    wildcard_exportable ns = true ∧
    star_error shim_name ns = None ∧
    public_surface ns = [(legacy_name, client); (new_name, client)].
Proof.
  intros Hun Hload.
  apply (load_ok_inv _ Hun) in Hload
    as (sdk & client & version & _ & Hr & _ & Hc & _ & -> & _).
  destruct (final_ns_own sdk client version) as (Hnew & _ & Hold & Hall).
  assert (Hx : wildcard_exportable (final_ns sdk client version) = true).
  { unfold wildcard_exportable. rewrite Hall. unfold EXPORTS.
    cbn [forallb item_exportable]. rewrite Hold, Hnew.
    by rewrite !bool_decide_eq_true_2 by eauto. }
  exists sdk, client. split_and!; try done.
  - by apply star_error_none.
  - unfold public_surface. rewrite Hall. unfold EXPORTS.
    cbn [omap list_omap surface_item]. by rewrite Hold, Hnew.
Qed.

Lemma shim_wildcard_surface_witness :
  ∃ sdk client,
    resolve successor_name Samples.fresh_process = inr sdk ∧
    sdk !! new_name = Some client ∧
    wildcard_exportable (final_ns Samples.sdk (VRef 1) (VStr "2.1.0")) = true ∧
    star_error shim_name (final_ns Samples.sdk (VRef 1) (VStr "2.1.0")) = None ∧
    public_surface (final_ns Samples.sdk (VRef 1) (VStr "2.1.0"))
      = [(legacy_name, client); (new_name, client)].
Proof.
  apply (shim_wildcard_surface Samples.fresh_process _
           (loaded Samples.sdk (VRef 1) (VStr "2.1.0") Samples.fresh_process)).
  - by vm_compute.
  - by_evaluation.
Defined.

(** ** The rest of the interpreter state *)








(** ** Trying again after a failure *)

Lemma failed_load_state w e w' :
  sys_modules w !! shim_name = None →
  import_rail_score w = (Raise e, w') →
  sys_modules w' !! shim_name = None ∧
  warn_filter w' = warn_filter w ∧
  resolve successor_name w' = resolve successor_name w.
Proof.
  intros Hun Hload.
  apply (load_raise_inv _ Hun) in Hload
    as (W & l & -> & [-> | (sdk & Hr & _ & ->)]).
  - split_and!; [apply unload_shim | done |].
    unfold resolve. by rewrite (unload_started_cache _ _ Hun).
  - split_and!; [apply unload_shim | |].
    + cbn [unload set_modules warn_filter bound].
      by destruct (with_module_installed successor_name sdk (started w)) as [_ ->].
    + unfold resolve at 1. rewrite (unload_found_cache _ _ _ Hun).
      by rewrite (with_module_lookup _ _ _ Hr).
Qed.

(** X6 (a failed load can be tried again, to the same effect).  After a
    first load has failed the module is not cached, so the next import runs
    the body again: in an environment left as it is, it fails with the same
    exception, and it issues the deprecation notice a second time. *)
Theorem failed_load_repeats (w : world) (e : exn) (w' : world) :
  sys_modules w !! shim_name = None →
  import_rail_score w = (Raise e, w') →
  ∃ w'',
    import_rail_score w' = (Raise e, w'') ∧
    sys_modules w'' !! shim_name = None ∧
    notices w'' = notices w ++ [the_notice; the_notice].
Proof.
  intros Hun Hload.
  destruct (failed_load_state _ _ _ Hun Hload) as (Hun' & Hf & Hr).
  pose proof (load_result w' Hun') as Hres.
  rewrite Hf, Hr, <- (load_result w Hun), Hload in Hres. simpl in Hres.
  destruct (import_rail_score w') as [r'' w''] eqn:Hload'.
  simpl in Hres. subst r''. exists w''. split; [done|].
  split.
  - by destruct (failed_load_state _ _ _ Hun' Hload') as (? & _).
  - rewrite (load_notices _ _ _ Hun' Hload'), (load_notices _ _ _ Hun Hload).
    by rewrite <- app_assoc.
Qed.

Lemma failed_load_repeats_witness :
  ∃ w'',
    import_rail_score (unload (started Samples.bare_process))
      = (Raise (ModuleNotFoundError successor_name), w'') ∧
    sys_modules w'' !! shim_name = None ∧
    notices w'' = notices Samples.bare_process ++ [the_notice; the_notice].
Proof.
  apply (failed_load_repeats Samples.bare_process).
  - by vm_compute.
  - by_evaluation.
Defined.

(** ** A successor with a stale export list *)



